(** * SelectionService (glsp-client, src/features/select/selection-service.ts)

    A shallow embedding of the selection tracker of the GLSP client and the
    properties of its update algorithm.

    The service is a single-threaded object with three fields: the last model
    root it has seen, the set of selected element ids and the array of
    registered listeners.  Calls are modelled as functions from the object
    state to a [Result]: the state the object is left in, the calls it made
    on its collaborators (the feedback dispatcher and the listeners) in the
    order it made them, and how the call ended (normal return or a thrown
    JavaScript error). *)

From Stdlib Require Import List String Bool Arith ZArith Lia.
Import ListNotations.
Open Scope string_scope.
Open Scope list_scope.

(** ** JavaScript values used by the service *)

(** [Array.prototype] functions on arrays of strings. *)
Module JSArray.

(** [a.indexOf(x)]: position of the first element strictly equal to [x],
    [-1] when there is none. *)
Fixpoint indexOfFrom (i : Z) (a : list string) (x : string) : Z :=
  match a with
  | [] => (-1)%Z
  | y :: a' => if String.eqb y x then i else indexOfFrom (i + 1)%Z a' x
  end.

Definition indexOf (a : list string) (x : string) : Z := indexOfFrom 0%Z a x.

(** [a.every(p)] *)
Definition every (p : string -> bool) (a : list string) : bool := forallb p a.

End JSArray.

(** [Set<string>]: a JavaScript set keeps its elements in insertion order and
    that order is what spreading ([[...s]]), [Array.from(s)] and [for .. of]
    observe.  It is modelled as the list of its elements in insertion order;
    a set never holds an element twice ([wf]). *)
Module JSSet.

Definition t := list string.

Definition empty : t := [].

Definition has (s : t) (x : string) : bool := existsb (String.eqb x) s.

(** [s.add(x)]: appended when absent, nothing otherwise. *)
Definition add (s : t) (x : string) : t := if has s x then s else s ++ [x].

(** [s.delete(x)] *)
Definition delete (s : t) (x : string) : t :=
  filter (fun y => negb (String.eqb x y)) s.

Definition size (s : t) : nat := List.length s.

(** [[...s]] and [Array.from(s)] *)
Definition values (s : t) : list string := s.

(** [new Set(a)] *)
Definition of_array (a : list string) : t := fold_left add a empty.

(** [new Set(s)]: a copy; the model is a value, so the copy is the value. *)
Definition copy (s : t) : t := s.

Definition wf (s : t) : Prop := NoDup s.

End JSSet.

(** ** The collaborators *)

(** An element of the diagram (sprotty's [SModelElement]); [selected] is the
    flag sprotty's [isSelected] reads. *)
Record SModelElement := mkElement {
  elementId : string;
  selected : bool
}.

Definition isSelected (e : SModelElement) : bool := selected e.

(** A model root (sprotty's [SModelRoot]).  Roots are objects compared by
    reference ([prevRoot !== root]); [ref] is the object's identity.  The
    service only uses the root's index: [root.index.getById(id)] and
    [root.index.all()]. *)
Record SModelRoot := mkRoot {
  ref : nat;
  getById : string -> option SModelElement;
  all : list SModelElement
}.

(** A root parameter or field can hold [undefined]: [None]. *)
Definition sameRoot (a b : option SModelRoot) : bool :=
  match a, b with
  | None, None => true
  | Some x, Some y => Nat.eqb (ref x) (ref y)
  | _, _ => false
  end.

(** [index.getById(id)] tested for truthiness or against [undefined]. *)
Definition resolves (r : SModelRoot) (id : string) : bool :=
  match getById r id with Some _ => true | None => false end.

(** A listener is an object known by its identity. *)
Abbreviation SelectionListener := nat (only parsing).

(** [new SelectFeedbackAction(selectedElementsIDs, deselectedElementsIDs)] *)
Record SelectFeedbackAction := mkSelectFeedback {
  selectedElementsIDs : list string;
  deselectedElementsIDs : list string
}.

(** What the service does to the outside, in order:
    [feedbackDispatcher.registerFeedback(this, actions)] and
    [listener.selectionChanged(root, selectedElements)]. *)
Inductive Event :=
| RegisterFeedback (actions : list SelectFeedbackAction)
| SelectionChanged (listener : SelectionListener)
                   (root : option SModelRoot) (selectedElements : list string).

(** The errors the service's own code can raise. *)
Inductive JSError :=
| TypeError.   (* reading a property of [undefined] *)

Inductive Completion :=
| Normal
| Throw (e : JSError).

(** ** The service *)

Record SelectionService := mkService {
  root : option SModelRoot;
  selectedElementIDs : JSSet.t;
  selectionListeners : list SelectionListener
}.

(** The object after construction: no root yet, the empty selection and the
    listeners the injector supplied. *)
Definition initial (listeners : list SelectionListener) : SelectionService :=
  {| root := None; selectedElementIDs := JSSet.empty;
     selectionListeners := listeners |}.

Record Result := mkResult {
  final : SelectionService;
  trace : list Event;
  completion : Completion
}.

Definition returns (this : SelectionService) : Result :=
  {| final := this; trace := []; completion := Normal |}.

(** Modelled from the spec: [distinctAdd] of utils/array-utils, which is not
    among the sources.  "add to the listener set only if not already present
    (idempotent; listener identity equality)"; the collection is an array, so
    a new listener goes to its end. *)
Definition distinctAdd (array : list SelectionListener) (value : SelectionListener)
  : list SelectionListener :=
  if existsb (Nat.eqb value) array then array else array ++ [value].

(** Modelled from the spec: [remove] of utils/array-utils, which is not among
    the sources.  "remove if present; no-op otherwise". *)
Fixpoint remove (array : list SelectionListener) (value : SelectionListener)
  : list SelectionListener :=
  match array with
  | [] => []
  | x :: array' => if Nat.eqb x value then array' else x :: remove array' value
  end.

Definition register (this : SelectionService) (selectionListener : SelectionListener)
  : SelectionService :=
  {| root := root this;
     selectedElementIDs := selectedElementIDs this;
     selectionListeners := distinctAdd (selectionListeners this) selectionListener |}.

Definition deregister (this : SelectionService) (selectionListener : SelectionListener)
  : SelectionService :=
  {| root := root this;
     selectedElementIDs := selectedElementIDs this;
     selectionListeners := remove (selectionListeners this) selectionListener |}.

(** [dispatchFeedback(actions)] *)
Definition dispatchFeedback (actions : list SelectFeedbackAction) : list Event :=
  [RegisterFeedback actions].

(** [notifyListeners(root, selectedElementIDs)]: [forEach] over the listener
    array, each listener gets its own [Array.from] of the set. *)
Definition notifyListeners (this : SelectionService)
           (r : option SModelRoot) (ids : JSSet.t) : list Event :=
  map (fun listener => SelectionChanged listener r (JSSet.values ids))
      (selectionListeners this).

(** Lines 64 and 65: the two filters. *)
Definition toSelect (select deselect : list string) : list string :=
  filter (fun selectId => Z.eqb (JSArray.indexOf deselect selectId) (-1)) select.

Definition toDeselect (this : SelectionService) (select deselect : list string)
  : list string :=
  filter (fun deselectId =>
            Z.eqb (JSArray.indexOf select deselectId) (-1)
            && JSSet.has (selectedElementIDs this) deselectId)
         deselect.

(** Lines 66 to 71: the deletions, then the additions. *)
Definition applySelection (this : SelectionService) (select deselect : list string)
  : JSSet.t :=
  fold_left JSSet.add (toSelect select deselect)
            (fold_left JSSet.delete (toDeselect this select deselect)
                       (selectedElementIDs this)).

(** Line 79: [prevRoot !== undefined && prevRoot.index.getById(id)], in a call
    whose root is [r].  [prevRoot] is a reference to an object, not a copy of
    it: when it is the object the call received (the same [ref]), the index
    it reads is the index of [r], the one line 76 has just read. *)
Definition prevResolves (prevRoot : option SModelRoot) (r : SModelRoot)
           (id : string) : bool :=
  match prevRoot with
  | Some p => if Nat.eqb (ref p) (ref r) then resolves r id else resolves p id
  | None => false
  end.

(** One turn of the loop of lines 75 to 83 for the element [id], on the
    selection and the collected deselected ids. *)
Definition pruneStep (r : SModelRoot) (prevRoot : option SModelRoot)
           (acc : JSSet.t * JSSet.t) (id : string) : JSSet.t * JSSet.t :=
  match getById r id with
  | None =>
      (JSSet.delete (fst acc) id,
       if prevResolves prevRoot r id then JSSet.add (snd acc) id else snd acc)
  | Some _ => acc
  end.

(** The loop over the set.  Deleting the element being visited does not
    disturb the iteration, so every element the set held at the start is
    visited once, in insertion order. *)
Definition pruneLoop (r : SModelRoot) (prevRoot : option SModelRoot)
           (ids deselected : JSSet.t) : JSSet.t * JSSet.t :=
  fold_left (pruneStep r prevRoot) (JSSet.values ids) (ids, deselected).

(** The loop with the root as the call received it: [root.index] on an
    [undefined] root is a TypeError, raised in the first turn; a loop over the
    empty set never evaluates it. *)
Definition validate (r : option SModelRoot) (prevRoot : option SModelRoot)
           (ids deselected : JSSet.t) : option (JSSet.t * JSSet.t) :=
  match r with
  | Some r' => Some (pruneLoop r' prevRoot ids deselected)
  | None =>
      match JSSet.values ids with
      | [] => Some (ids, deselected)
      | _ :: _ => None
      end
  end.

(** The deselected ids an update to the root [r] collects (the set
    [deselectedElementIDs] after the loop). *)
Definition deselectedReport (this : SelectionService) (r : SModelRoot)
           (select deselect : list string) : JSSet.t :=
  snd (pruneLoop r (root this) (applySelection this select deselect)
                 (JSSet.of_array (toDeselect this select deselect))).

Definition isUndefined (r : option SModelRoot) : bool :=
  match r with None => true | Some _ => false end.

(** Line 86: the test that decides whether the selection changed. *)
Definition selectionChanged (prevSelectedElementIDs ids : JSSet.t) : bool :=
  negb (Nat.eqb (JSSet.size prevSelectedElementIDs) (JSSet.size ids))
  || negb (JSArray.every (fun value => JSSet.has ids value)
                         (JSSet.values prevSelectedElementIDs)).

Definition updateSelection (this : SelectionService) (r : option SModelRoot)
           (select deselect : list string) : Result :=
  if isUndefined r && Nat.eqb (List.length select) 0
     && Nat.eqb (List.length deselect) 0
  then returns this
  else
    let prevRoot := root this in
    let prevSelectedElementIDs := JSSet.copy (selectedElementIDs this) in
    let ids := applySelection this select deselect in
    match validate r prevRoot ids
                   (JSSet.of_array (toDeselect this select deselect)) with
    | None =>
        {| final := {| root := r; selectedElementIDs := ids;
                       selectionListeners := selectionListeners this |};
           trace := [];
           completion := Throw TypeError |}
    | Some (ids', deselectedElementIDs) =>
        let this' := {| root := r; selectedElementIDs := ids';
                        selectionListeners := selectionListeners this |} in
        let selectionChanged := selectionChanged prevSelectedElementIDs ids' in
        let feedback :=
          if selectionChanged
          then dispatchFeedback
                 [mkSelectFeedback (JSSet.values ids')
                                   (JSSet.values deselectedElementIDs)]
          else [] in
        let rootChanged := negb (sameRoot prevRoot r) in
        let notified :=
          if rootChanged || selectionChanged
          then notifyListeners this' (root this') (selectedElementIDs this')
          else [] in
        {| final := this'; trace := feedback ++ notified; completion := Normal |}
    end.

Definition modelRootChanged (this : SelectionService) (r : option SModelRoot)
  : Result :=
  updateSelection this r [] [].

(** The queries.  [getSelectedElements] reads [this.root.index]: a TypeError
    while there is no root. *)
Definition getModelRoot (this : SelectionService) : option SModelRoot := root this.

Definition getSelectedElements (this : SelectionService)
  : option (list SModelElement) :=
  match root this with
  | Some r => Some (filter isSelected (all r))
  | None => None
  end.

Definition getSelectedElementIDs (this : SelectionService) : JSSet.t :=
  selectedElementIDs this.

Definition hasSelectedElements (this : SelectionService) : bool :=
  Nat.ltb 0 (JSSet.size (selectedElementIDs this)).

Definition isSingleSelection (this : SelectionService) : bool :=
  Nat.eqb (JSSet.size (selectedElementIDs this)) 1.

Definition isMultiSelection (this : SelectionService) : bool :=
  Nat.ltb 1 (JSSet.size (selectedElementIDs this)).


(** The calls a client can make on the service. *)
Inductive Call :=
| CallRegister (listener : SelectionListener)
| CallDeregister (listener : SelectionListener)
| CallModelRootChanged (r : option SModelRoot)
| CallUpdateSelection (r : option SModelRoot) (select deselect : list string)
| CallGetModelRoot
| CallGetSelectedElements
| CallGetSelectedElementIDs
| CallHasSelectedElements
| CallIsSingleSelection
| CallIsMultiSelection.

Definition run (c : Call) (this : SelectionService) : Result :=
  match c with
  | CallRegister l => returns (register this l)
  | CallDeregister l => returns (deregister this l)
  | CallModelRootChanged r => modelRootChanged this r
  | CallUpdateSelection r select deselect => updateSelection this r select deselect
  | CallGetSelectedElements =>
      match getSelectedElements this with
      | Some _ => returns this
      | None => {| final := this; trace := []; completion := Throw TypeError |}
      end
  | CallGetModelRoot | CallGetSelectedElementIDs | CallHasSelectedElements
  | CallIsSingleSelection | CallIsMultiSelection => returns this
  end.

(** The states the object can be in: the constructed object and whatever a
    call leaves behind, a call that threw included. *)
Inductive reachable : SelectionService -> Prop :=
| reachable_initial (listeners : list SelectionListener) :
    reachable (initial listeners)
| reachable_call (c : Call) (this : SelectionService) :
    reachable this -> reachable (final (run c this)).

(** ** Vocabulary of the properties *)

(** Every selected id resolves in the index of the stored root. *)
Definition Invariant (this : SelectionService) : Prop :=
  forall id, In id (selectedElementIDs this) ->
             exists r, root this = Some r /\ resolves r id = true.

(** The same, for the states that hold a root. *)
Definition resolvedIn (this : SelectionService) : Prop :=
  forall r, root this = Some r ->
            forall id, In id (selectedElementIDs this) -> resolves r id = true.

(** Two sets with the same contents. *)
Definition sameSelection (a b : JSSet.t) : Prop :=
  forall id, In id a <-> In id b.

Definition isFeedback (e : Event) : bool :=
  match e with RegisterFeedback _ => true | SelectionChanged _ _ _ => false end.

Definition isNotification (e : Event) : bool :=
  match e with RegisterFeedback _ => false | SelectionChanged _ _ _ => true end.

Definition isNotificationTo (l : SelectionListener) (e : Event) : bool :=
  match e with
  | RegisterFeedback _ => false
  | SelectionChanged l' _ _ => Nat.eqb l' l
  end.

(** How many times the listener [l] is called in a trace. *)
Definition notificationsTo (l : SelectionListener) (tr : list Event) : nat :=
  List.length (filter (isNotificationTo l) tr).

(** ** Sample roots and the scenarios of the specification *)

Definition indexOf_elements (es : list SModelElement) (id : string)
  : option SModelElement :=
  find (fun e => String.eqb (elementId e) id) es.

Definition rootOf (identity : nat) (es : list SModelElement) : SModelRoot :=
  {| ref := identity; getById := indexOf_elements es; all := es |}.

Definition rootA : SModelRoot :=
  rootOf 1 [mkElement "n1" false; mkElement "n2" false].

Definition rootB : SModelRoot :=
  rootOf 2 [mkElement "n2" false].

(** The object [rootA] once its index has lost "n1": the same reference,
    another index. *)
Definition rootA_reloaded : SModelRoot :=
  rootOf 1 [mkElement "n2" false].

Definition scenario1 : Result :=
  updateSelection (initial [7]) (Some rootA) ["n1"; "n2"] [].

Definition scenario2 : Result :=
  updateSelection (final scenario1) (Some rootA) ["n2"] ["n2"].

Definition scenario3 : Result :=
  modelRootChanged (final scenario2) (Some rootB).

Example scenario1_ok :
  selectedElementIDs (final scenario1) = ["n1"; "n2"]
  /\ trace scenario1 =
       [RegisterFeedback [mkSelectFeedback ["n1"; "n2"] []];
        SelectionChanged 7 (Some rootA) ["n1"; "n2"]].
Proof. split; reflexivity. Qed.

Example scenario2_ok :
  selectedElementIDs (final scenario2) = ["n1"; "n2"] /\ trace scenario2 = [].
Proof. split; reflexivity. Qed.

Example scenario3_ok :
  selectedElementIDs (final scenario3) = ["n2"]
  /\ trace scenario3 =
       [RegisterFeedback [mkSelectFeedback ["n2"] ["n1"]];
        SelectionChanged 7 (Some rootB) ["n2"]].
Proof. split; reflexivity. Qed.

(** The stored root and the root of the call are one object: line 79 reads the
    index line 76 has read, and the pruned id is not reported. *)
Example same_object_reports_nothing :
  trace (modelRootChanged (final scenario1) (Some rootA_reloaded))
  = [RegisterFeedback [mkSelectFeedback ["n2"] []];
     SelectionChanged 7 (Some rootA_reloaded) ["n2"]].
Proof. reflexivity. Qed.

(** ** Arrays and sets *)

Lemma indexOfFrom_absent (a : list string) (x : string) (i : Z) :
  (0 <= i)%Z -> (JSArray.indexOfFrom i a x = (-1)%Z <-> ~ In x a).
Proof.
  revert i; induction a as [|y a IH]; intros i Hi; simpl.
  - split; auto.
  - destruct (String.eqb y x) eqn:E.
    + apply String.eqb_eq in E. split; [lia | intros H; exfalso; apply H; auto].
    + apply String.eqb_neq in E. rewrite IH by lia. tauto.
Qed.

Lemma indexOf_absent (a : list string) (x : string) :
  Z.eqb (JSArray.indexOf a x) (-1) = true <-> ~ In x a.
Proof.
  rewrite Z.eqb_eq. apply indexOfFrom_absent. lia.
Qed.

Lemma has_In (s : JSSet.t) (x : string) : JSSet.has s x = true <-> In x s.
Proof.
  unfold JSSet.has. rewrite existsb_exists. split.
  - intros [y [Hy E]]. apply String.eqb_eq in E. now subst.
  - intros H. exists x. split; [assumption | apply String.eqb_refl].
Qed.

Lemma has_false (s : JSSet.t) (x : string) : JSSet.has s x = false <-> ~ In x s.
Proof.
  rewrite <- has_In. destruct (JSSet.has s x); split; congruence.
Qed.

Lemma In_add (s : JSSet.t) (x y : string) :
  In y (JSSet.add s x) <-> In y s \/ y = x.
Proof.
  unfold JSSet.add. destruct (JSSet.has s x) eqn:E.
  - apply has_In in E. split; [auto | intros [H | ->]; assumption].
  - rewrite in_app_iff. simpl. intuition congruence.
Qed.

Lemma In_delete (s : JSSet.t) (x y : string) :
  In y (JSSet.delete s x) <-> In y s /\ y <> x.
Proof.
  unfold JSSet.delete. rewrite filter_In, negb_true_iff, String.eqb_neq.
  intuition congruence.
Qed.

Lemma wf_add (s : JSSet.t) (x : string) : JSSet.wf s -> JSSet.wf (JSSet.add s x).
Proof.
  unfold JSSet.wf, JSSet.add. intros H. destruct (JSSet.has s x) eqn:E; [assumption|].
  apply has_false in E. apply NoDup_app; [assumption | repeat constructor; auto | ].
  intros a Ha [<- | []]. contradiction.
Qed.

Lemma wf_delete (s : JSSet.t) (x : string) : JSSet.wf s -> JSSet.wf (JSSet.delete s x).
Proof. apply NoDup_filter. Qed.

Lemma In_fold_delete (l : list string) (s : JSSet.t) (y : string) :
  In y (fold_left JSSet.delete l s) <-> In y s /\ ~ In y l.
Proof.
  revert s; induction l as [|x l IH]; intros s; simpl; [tauto|].
  rewrite IH, In_delete. intuition congruence.
Qed.

Lemma In_fold_add (l : list string) (s : JSSet.t) (y : string) :
  In y (fold_left JSSet.add l s) <-> In y s \/ In y l.
Proof.
  revert s; induction l as [|x l IH]; intros s; simpl; [tauto|].
  rewrite IH, In_add. intuition congruence.
Qed.

Lemma wf_fold_delete (l : list string) (s : JSSet.t) :
  JSSet.wf s -> JSSet.wf (fold_left JSSet.delete l s).
Proof.
  revert s; induction l; intros s H; simpl; auto using wf_delete.
Qed.

Lemma wf_fold_add (l : list string) (s : JSSet.t) :
  JSSet.wf s -> JSSet.wf (fold_left JSSet.add l s).
Proof.
  revert s; induction l; intros s H; simpl; auto using wf_add.
Qed.

Lemma In_of_array (a : list string) (y : string) :
  In y (JSSet.of_array a) <-> In y a.
Proof.
  unfold JSSet.of_array. rewrite In_fold_add. simpl. tauto.
Qed.

(** Additions only append: what was in the set keeps its place. *)
Lemma fold_add_extends (l : list string) (s : JSSet.t) :
  exists suffix,
    fold_left JSSet.add l s = s ++ suffix
    /\ forall y, In y suffix -> In y l /\ ~ In y s.
Proof.
  revert s; induction l as [|x l IH]; intros s; simpl.
  - exists []. rewrite app_nil_r. split; [reflexivity | intros y []].
  - destruct (IH (JSSet.add s x)) as [suf [E Hsuf]]. unfold JSSet.add in *.
    destruct (JSSet.has s x) eqn:Hx.
    + exists suf. split; [assumption|]. intros y Hy.
      destruct (Hsuf y Hy). auto.
    + apply has_false in Hx. exists (x :: suf). split.
      * rewrite E, <- app_assoc. reflexivity.
      * intros y [<- | Hy]; [auto|].
        destruct (Hsuf y Hy) as [H1 H2]. rewrite in_app_iff in H2. tauto.
Qed.

(** ** The two filters and the selection they produce *)

Lemma In_toSelect (select deselect : list string) (id : string) :
  In id (toSelect select deselect) <-> In id select /\ ~ In id deselect.
Proof.
  unfold toSelect. rewrite filter_In, indexOf_absent. tauto.
Qed.

Lemma In_toDeselect (this : SelectionService) (select deselect : list string)
      (id : string) :
  In id (toDeselect this select deselect)
  <-> In id deselect /\ ~ In id select /\ In id (selectedElementIDs this).
Proof.
  unfold toDeselect. rewrite filter_In, andb_true_iff, indexOf_absent, has_In.
  tauto.
Qed.

Lemma In_applySelection (this : SelectionService) (select deselect : list string)
      (id : string) :
  In id (applySelection this select deselect)
  <-> (In id (selectedElementIDs this)
       /\ ~ (In id deselect /\ ~ In id select))
      \/ (In id select /\ ~ In id deselect).
Proof.
  unfold applySelection.
  rewrite In_fold_add, In_fold_delete, In_toSelect, In_toDeselect. tauto.
Qed.

Lemma wf_applySelection (this : SelectionService) (select deselect : list string) :
  JSSet.wf (selectedElementIDs this) ->
  JSSet.wf (applySelection this select deselect).
Proof.
  intros H. unfold applySelection. auto using wf_fold_add, wf_fold_delete.
Qed.

(** ** The validation loop *)

Lemma filter_filter {A} (f g : A -> bool) (l : list A) :
  filter f (filter g l) = filter (fun x => g x && f x) l.
Proof.
  induction l as [|a l IH]; simpl; [reflexivity|].
  destruct (g a); simpl; [destruct (f a)|]; rewrite IH; reflexivity.
Qed.

Section ValidationLoop.

Variable r : SModelRoot.
Variable p : option SModelRoot.

Lemma pruneStep_resolved (acc : JSSet.t * JSSet.t) (id : string) :
  resolves r id = true -> pruneStep r p acc id = acc.
Proof.
  unfold pruneStep, resolves. destruct (getById r id); [reflexivity | discriminate].
Qed.

Lemma pruneStep_unresolved (acc : JSSet.t * JSSet.t) (id : string) :
  resolves r id = false ->
  pruneStep r p acc id =
    (JSSet.delete (fst acc) id,
     if prevResolves p r id then JSSet.add (snd acc) id else snd acc).
Proof.
  unfold pruneStep, resolves.
  destruct (getById r id); [discriminate | reflexivity].
Qed.

(** The selection the turns over [l] leave: the ids of [l] that the root does
    not resolve are gone, nothing else moved. *)
Lemma fold_pruneStep_fst (l : list string) (s d : JSSet.t) :
  fst (fold_left (pruneStep r p) l (s, d))
  = filter (fun id => resolves r id || negb (JSSet.has l id)) s.
Proof.
  revert s d; induction l as [|a l IH]; intros s d; simpl.
  - symmetry. apply forallb_filter_id. apply forallb_forall. intros x _.
    apply orb_true_r.
  - destruct (resolves r a) eqn:Ha.
    + rewrite pruneStep_resolved by assumption. rewrite IH.
      apply filter_ext. intros x. destruct (String.eqb x a) eqn:E; [|reflexivity].
      apply String.eqb_eq in E. subst x. rewrite Ha. reflexivity.
    + rewrite pruneStep_unresolved by assumption. simpl. rewrite IH.
      unfold JSSet.delete. rewrite filter_filter. apply filter_ext. intros x.
      rewrite (String.eqb_sym a x).
      destruct (String.eqb x a) eqn:E; simpl; [|reflexivity].
      apply String.eqb_eq in E. subst x. rewrite Ha. reflexivity.
Qed.

Lemma pruneLoop_fst (s d : JSSet.t) :
  fst (pruneLoop r p s d) = filter (resolves r) s.
Proof.
  unfold pruneLoop, JSSet.values. rewrite fold_pruneStep_fst.
  apply filter_ext_in. intros x Hx. apply has_In in Hx. rewrite Hx.
  apply orb_false_r.
Qed.

Lemma fold_pruneStep_snd (l : list string) (s d : JSSet.t) (x : string) :
  In x (snd (fold_left (pruneStep r p) l (s, d)))
  <-> In x d \/ (In x l /\ resolves r x = false /\ prevResolves p r x = true).
Proof.
  revert s d; induction l as [|a l IH]; intros s d; simpl; [tauto|].
  destruct (resolves r a) eqn:Ha.
  - rewrite pruneStep_resolved by assumption. rewrite IH.
    intuition (subst; congruence).
  - rewrite pruneStep_unresolved by assumption. simpl. rewrite IH.
    destruct (prevResolves p r a) eqn:Hp.
    + rewrite In_add. intuition (subst; auto; congruence).
    + intuition (subst; congruence).
Qed.

Lemma fold_pruneStep_snd_wf (l : list string) (s d : JSSet.t) :
  JSSet.wf d -> JSSet.wf (snd (fold_left (pruneStep r p) l (s, d))).
Proof.
  revert s d; induction l as [|a l IH]; intros s d H; simpl; [assumption|].
  destruct (resolves r a) eqn:Ha.
  - rewrite pruneStep_resolved by assumption. auto.
  - rewrite pruneStep_unresolved by assumption. simpl. apply IH.
    destruct (prevResolves p r a); auto using wf_add.
Qed.

End ValidationLoop.

(** Line 79 in a turn where [r] did not resolve the id: the previous root
    answers only when it is another object than [r]. *)
Lemma prevResolves_unresolved (p : option SModelRoot) (r : SModelRoot)
      (id : string) :
  resolves r id = false ->
  (prevResolves p r id = true
   <-> exists q, p = Some q /\ ref q <> ref r /\ resolves q id = true).
Proof.
  intros Hr. unfold prevResolves. destruct p as [q|].
  - destruct (Nat.eqb (ref q) (ref r)) eqn:E.
    + apply Nat.eqb_eq in E. rewrite Hr. split; [discriminate|].
      intros [q' [Hq [Hne _]]]. injection Hq as <-. contradiction.
    + apply Nat.eqb_neq in E. split.
      * intros H. exists q. auto.
      * intros [q' [Hq [_ H]]]. injection Hq as <-. assumption.
  - split; [discriminate | intros [q [H _]]; discriminate].
Qed.

Lemma In_deselectedReport (this : SelectionService) (r : SModelRoot)
      (select deselect : list string) (x : string) :
  In x (deselectedReport this r select deselect)
  <-> In x (toDeselect this select deselect)
      \/ (In x (applySelection this select deselect)
          /\ resolves r x = false /\ prevResolves (root this) r x = true).
Proof.
  unfold deselectedReport, pruneLoop.
  rewrite fold_pruneStep_snd, In_of_array. reflexivity.
Qed.

(** ** The selection test *)

Lemma selectionChanged_false (prev ids : JSSet.t) :
  JSSet.wf prev -> JSSet.wf ids ->
  (selectionChanged prev ids = false <-> forall x, In x prev <-> In x ids).
Proof.
  unfold selectionChanged, JSSet.wf, JSSet.size, JSArray.every, JSSet.values.
  intros Hp Hi.
  rewrite orb_false_iff, !negb_false_iff, Nat.eqb_eq, forallb_forall.
  split.
  - intros [Hlen Hall] x. split.
    + intros Hx. apply has_In. auto.
    + revert x. apply (NoDup_length_incl Hp); [lia|].
      intros y Hy. apply has_In. auto.
  - intros H. split.
    + apply Nat.le_antisymm; apply NoDup_incl_length; try assumption;
        intros y Hy; apply H; assumption.
    + intros x Hx. apply has_In. apply H. assumption.
Qed.

Lemma selectionChanged_missing (prev ids : JSSet.t) (x : string) :
  In x prev -> ~ In x ids -> selectionChanged prev ids = true.
Proof.
  intros Hp Hi. unfold selectionChanged, JSArray.every, JSSet.values.
  apply orb_true_iff. right. apply negb_true_iff, not_true_iff_false.
  intros H. rewrite forallb_forall in H. apply Hi, has_In, H. assumption.
Qed.

Lemma selectionChanged_same (ids : JSSet.t) : selectionChanged ids ids = false.
Proof.
  unfold selectionChanged, JSArray.every, JSSet.values.
  rewrite Nat.eqb_refl. simpl. apply negb_false_iff, forallb_forall.
  intros x Hx. apply has_In. assumption.
Qed.

(** ** What an update computes *)

(** With a root, the update always returns; its result in closed form. *)
Lemma updateSelection_defined (this : SelectionService) (r : SModelRoot)
      (select deselect : list string) :
  updateSelection this (Some r) select deselect =
    let ids' := filter (resolves r) (applySelection this select deselect) in
    let changed := selectionChanged (selectedElementIDs this) ids' in
    {| final := {| root := Some r; selectedElementIDs := ids';
                   selectionListeners := selectionListeners this |};
       trace :=
         (if changed
          then [RegisterFeedback
                  [mkSelectFeedback ids' (deselectedReport this r select deselect)]]
          else [])
         ++ (if negb (sameRoot (root this) (Some r)) || changed
             then map (fun l => SelectionChanged l (Some r) ids')
                      (selectionListeners this)
             else []);
       completion := Normal |}.
Proof.
  unfold updateSelection, deselectedReport. simpl isUndefined. cbv iota beta.
  simpl andb. cbv iota. unfold validate.
  rewrite <- (pruneLoop_fst r (root this) (applySelection this select deselect)
                (JSSet.of_array (toDeselect this select deselect))).
  destruct (pruneLoop r (root this) (applySelection this select deselect)
              (JSSet.of_array (toDeselect this select deselect))) as [ids' rep].
  reflexivity.
Qed.

(** Without a root, and with something to select or deselect, the update
    returns only when the selection it has computed is empty. *)
Lemma updateSelection_undefined (this : SelectionService)
      (select deselect : list string) :
  updateSelection this None select deselect =
    if Nat.eqb (List.length select) 0 && Nat.eqb (List.length deselect) 0
    then returns this
    else
      match applySelection this select deselect with
      | [] =>
          let changed := selectionChanged (selectedElementIDs this) [] in
          {| final := {| root := None; selectedElementIDs := [];
                         selectionListeners := selectionListeners this |};
             trace :=
               (if changed
                then [RegisterFeedback
                        [mkSelectFeedback
                           [] (JSSet.of_array (toDeselect this select deselect))]]
                else [])
               ++ (if negb (sameRoot (root this) None) || changed
                   then map (fun l => SelectionChanged l None [])
                            (selectionListeners this)
                   else []);
             completion := Normal |}
      | id :: ids =>
          {| final := {| root := None; selectedElementIDs := id :: ids;
                         selectionListeners := selectionListeners this |};
             trace := [];
             completion := Throw TypeError |}
      end.
Proof.
  unfold updateSelection. simpl isUndefined. simpl andb.
  destruct (Nat.eqb (List.length select) 0 && Nat.eqb (List.length deselect) 0);
    [reflexivity|].
  unfold validate, JSSet.values.
  destruct (applySelection this select deselect); reflexivity.
Qed.

Lemma updateSelection_selection (this : SelectionService) (r : SModelRoot)
      (select deselect : list string) (id : string) :
  In id (selectedElementIDs (final (updateSelection this (Some r) select deselect)))
  <-> In id (applySelection this select deselect) /\ resolves r id = true.
Proof.
  rewrite updateSelection_defined. simpl. apply filter_In.
Qed.

(** When an update throws. *)
Lemma updateSelection_throws (this : SelectionService) (r : option SModelRoot)
      (select deselect : list string) :
  completion (updateSelection this r select deselect) = Throw TypeError
  <-> r = None
      /\ applySelection this select deselect <> []
      /\ (select <> [] \/ deselect <> []).
Proof.
  destruct r as [r|].
  - rewrite updateSelection_defined. simpl. split; [discriminate|].
    intros [H _]. discriminate.
  - rewrite updateSelection_undefined.
    destruct (Nat.eqb (List.length select) 0 && Nat.eqb (List.length deselect) 0)
             eqn:Hempty.
    + apply andb_true_iff in Hempty. destruct Hempty as [Hs Hd].
      apply Nat.eqb_eq, length_zero_iff_nil in Hs.
      apply Nat.eqb_eq, length_zero_iff_nil in Hd.
      simpl. split; [discriminate | intros [_ [_ [H | H]]]; contradiction].
    + destruct (applySelection this select deselect) as [|id ids]; simpl.
      * split; [discriminate | intros [_ [H _]]; contradiction].
      * split; [intros _ | reflexivity].
        split; [reflexivity | split; [discriminate|]].
        destruct select; [|left; discriminate].
        destruct deselect; [discriminate | right; discriminate].
Qed.

(** ** Shape of the trace *)

Lemma sameRoot_refl (r : option SModelRoot) : sameRoot r r = true.
Proof. destruct r; simpl; [apply Nat.eqb_refl | reflexivity]. Qed.

Lemma updateSelection_listeners (this : SelectionService) (r : option SModelRoot)
      (select deselect : list string) :
  selectionListeners (final (updateSelection this r select deselect))
  = selectionListeners this.
Proof.
  destruct r as [r|].
  - rewrite updateSelection_defined. reflexivity.
  - rewrite updateSelection_undefined.
    destruct (_ && _); [reflexivity|].
    destruct (applySelection this select deselect); reflexivity.
Qed.

(** The root the service holds after an update: the one the call received,
    unless the call returned at line 53. *)
Lemma updateSelection_root (this : SelectionService) (r : option SModelRoot)
      (select deselect : list string) :
  root (final (updateSelection this r select deselect)) = r
  \/ root (final (updateSelection this r select deselect)) = root this.
Proof.
  destruct r as [r|].
  - rewrite updateSelection_defined. left. reflexivity.
  - rewrite updateSelection_undefined.
    destruct (_ && _); [right; reflexivity|].
    destruct (applySelection this select deselect); left; reflexivity.
Qed.

Lemma updateSelection_thrown_trace (this : SelectionService) (r : option SModelRoot)
      (select deselect : list string) :
  completion (updateSelection this r select deselect) <> Normal ->
  trace (updateSelection this r select deselect) = [].
Proof.
  destruct r as [r|].
  - rewrite updateSelection_defined. simpl. congruence.
  - rewrite updateSelection_undefined.
    destruct (_ && _); [reflexivity|].
    destruct (applySelection this select deselect); simpl; [congruence | reflexivity].
Qed.

(** A call that returns has dispatched at most one feedback, first, and then
    called the listeners in the order of the listener array, both under the
    tests of lines 87 and 93 read on the states before and after. *)
Lemma updateSelection_trace (this : SelectionService) (r : option SModelRoot)
      (select deselect : list string) :
  let res := updateSelection this r select deselect in
  let this' := final res in
  let changed := selectionChanged (selectedElementIDs this) (selectedElementIDs this') in
  completion res = Normal ->
  exists deselected,
    trace res =
      (if changed
       then [RegisterFeedback
               [mkSelectFeedback (JSSet.values (selectedElementIDs this')) deselected]]
       else [])
      ++ (if negb (sameRoot (root this) (root this')) || changed
          then map (fun l => SelectionChanged l (root this')
                                              (JSSet.values (selectedElementIDs this')))
                   (selectionListeners this)
          else []).
Proof.
  destruct r as [r|]; cbv zeta.
  - rewrite updateSelection_defined. simpl. intros _.
    exists (deselectedReport this r select deselect). reflexivity.
  - rewrite updateSelection_undefined.
    destruct (_ && _).
    + simpl. intros _. exists []. rewrite selectionChanged_same, sameRoot_refl.
      reflexivity.
    + destruct (applySelection this select deselect); simpl; [|discriminate].
      intros _. exists (JSSet.of_array (toDeselect this select deselect)).
      reflexivity.
Qed.

Lemma updateSelection_wf (this : SelectionService) (r : option SModelRoot)
      (select deselect : list string) :
  JSSet.wf (selectedElementIDs this) ->
  JSSet.wf (selectedElementIDs (final (updateSelection this r select deselect))).
Proof.
  intros H. pose proof (wf_applySelection this select deselect H) as Ha.
  destruct r as [r|].
  - rewrite updateSelection_defined. simpl. apply NoDup_filter. assumption.
  - rewrite updateSelection_undefined.
    destruct (_ && _); [assumption|].
    destruct (applySelection this select deselect); simpl; [constructor | assumption].
Qed.

(** ** A new model root *)





(** ** The states the service can be in *)

Lemma run_wf (c : Call) (this : SelectionService) :
  JSSet.wf (selectedElementIDs this) ->
  JSSet.wf (selectedElementIDs (final (run c this))).
Proof.
  intros H. destruct c; simpl; try assumption.
  - apply updateSelection_wf. assumption.
  - apply updateSelection_wf. assumption.
  - destruct (getSelectedElements this); assumption.
Qed.

Lemma reachable_wf (this : SelectionService) :
  reachable this -> JSSet.wf (selectedElementIDs this).
Proof.
  induction 1 as [ls | c this _ IH]; [constructor | apply run_wf; assumption].
Qed.

Lemma updateSelection_resolvedIn (this : SelectionService) (r : option SModelRoot)
      (select deselect : list string) :
  resolvedIn this -> resolvedIn (final (updateSelection this r select deselect)).
Proof.
  intros H. destruct r as [r|].
  - rewrite updateSelection_defined. simpl. intros r' E id Hid. simpl in *.
    injection E as <-. apply filter_In in Hid. tauto.
  - rewrite updateSelection_undefined.
    destruct (_ && _); [assumption|].
    destruct (applySelection this select deselect); intros r' E; discriminate.
Qed.

(** Whenever the service holds a root, every selected id resolves in it; this
    also holds after a call that threw, which leaves no root behind. *)
Lemma reachable_resolvedIn (this : SelectionService) :
  reachable this -> resolvedIn this.
Proof.
  induction 1 as [ls | c this _ IH].
  - intros r E. discriminate.
  - destruct c; simpl; try assumption.
    + apply updateSelection_resolvedIn. assumption.
    + apply updateSelection_resolvedIn. assumption.
    + destruct (getSelectedElements this); assumption.
Qed.

(** ** The properties *)

(** C1, as the specification words it, does not hold: an id in both lists is
    left as it was.  On the fresh service, [updateSelection(rootA, ["n2"],
    ["n2"])] returns with "n2" in both lists and resolvable in [rootA], and
    "n2" is not selected afterwards. *)
Lemma conflict_not_selected :
  In "n2" ["n2"]
  /\ resolves rootA "n2" = true
  /\ completion (updateSelection (initial []) (Some rootA) ["n2"] ["n2"]) = Normal
  /\ ~ In "n2" (selectedElementIDs
                  (final (updateSelection (initial []) (Some rootA) ["n2"] ["n2"]))).
Proof.
  split; [simpl; auto|].
  split; [reflexivity|].
  split; [reflexivity|].
  simpl. intros [].
Qed.

(** C1 (amended): for every call [updateSelection(root, select, deselect)]
    with a root and every id in both lists, neither filter keeps the id, so
    the id is selected after the call exactly when it was selected before the
    call and resolves in the index of [root]. *)
Theorem conflict_keeps_membership (this : SelectionService) (r : SModelRoot)
        (select deselect : list string) (id : string) :
  In id select -> In id deselect ->
  (In id (selectedElementIDs (final (updateSelection this (Some r) select deselect)))
   <-> In id (selectedElementIDs this) /\ resolves r id = true).
Proof.
  intros Hs Hd. rewrite updateSelection_selection, In_applySelection. tauto.
Qed.

Lemma conflict_keeps_membership_witness :
  In "n2" (selectedElementIDs (final (updateSelection (final scenario1) (Some rootA)
                                                      ["n2"] ["n2"])))
  <-> In "n2" (selectedElementIDs (final scenario1)) /\ resolves rootA "n2" = true.
Proof.
  apply (conflict_keeps_membership (final scenario1) rootA ["n2"] ["n2"] "n2");
    simpl; auto.
Defined.

(** C2 fails on the code: on the fresh service, [updateSelection(undefined,
    ["n1"], [])] passes the guard of line 52 (the select list is not empty),
    adds "n1" to the set and reads [root.index] of the undefined root in the
    first turn of the loop of line 75: a TypeError raised by the service
    itself, with no listener involved.  The service is left with no root and
    "n1" selected. *)
Theorem updateSelection_undefined_root_throws :
  updateSelection (initial []) None ["n1"] [] =
    {| final := {| root := None; selectedElementIDs := ["n1"];
                   selectionListeners := [] |};
       trace := [];
       completion := Throw TypeError |}.
Proof. reflexivity. Qed.

(** C3, as the claim words it, does not hold: the deselected ids only go out
    with the feedback, and the feedback is only dispatched when the selection
    changed (line 87).  On the service that holds [rootA] with nothing
    selected, [updateSelection(rootB, ["n1"], [])] adds "n1", prunes it
    again because [rootB] does not resolve it, and although the previous
    root [rootA] resolved it the call dispatches no feedback: all that goes
    out is the listener call for the new root. *)
Lemma pruned_without_report :
  In "n1" (applySelection (final (modelRootChanged (initial [7]) (Some rootA)))
                          ["n1"] [])
  /\ resolves rootB "n1" = false
  /\ root (final (modelRootChanged (initial [7]) (Some rootA))) = Some rootA
  /\ resolves rootA "n1" = true
  /\ ~ In "n1" (selectedElementIDs
                  (final (updateSelection
                            (final (modelRootChanged (initial [7]) (Some rootA)))
                            (Some rootB) ["n1"] [])))
  /\ trace (updateSelection (final (modelRootChanged (initial [7]) (Some rootA)))
                            (Some rootB) ["n1"] [])
     = [SelectionChanged 7 (Some rootB) []].
Proof.
  split; [simpl; auto|].
  split; [reflexivity|].
  split; [reflexivity|].
  split; [reflexivity|].
  split; [simpl; intros [] | reflexivity].
Qed.

(** C3 (amended): in an update to the root [r], an id that is in the
    selection after the deletions and additions and that [r] does not
    resolve is not selected after the update.  Whenever the update
    dispatches a feedback, the id is in the deselected list of that feedback
    exactly when there is a previous root, it is another object than [r],
    and it resolves the id.  When the id was selected before the call, the
    feedback is dispatched (and followed by the listener calls). *)
Theorem pruned_and_reported (this : SelectionService) (r : SModelRoot)
        (select deselect : list string) (id : string) :
  In id (applySelection this select deselect) ->
  resolves r id = false ->
  let res := updateSelection this (Some r) select deselect in
  let reported :=
    exists p, root this = Some p /\ ref p <> ref r /\ resolves p id = true in
  ~ In id (selectedElementIDs (final res))
  /\ (forall actions,
        In (RegisterFeedback actions) (trace res) ->
        exists deselected,
          actions = [mkSelectFeedback (selectedElementIDs (final res)) deselected]
          /\ (In id deselected <-> reported))
  /\ (In id (selectedElementIDs this) ->
      exists deselected,
        trace res =
          RegisterFeedback
            [mkSelectFeedback (selectedElementIDs (final res)) deselected]
          :: map (fun l => SelectionChanged l (Some r)
                             (selectedElementIDs (final res)))
                 (selectionListeners this)
        /\ (In id deselected <-> reported)).
Proof.
  intros Hin Hr res reported.
  assert (Hgone : ~ In id (selectedElementIDs (final res))).
  { unfold res. rewrite updateSelection_selection. intros [_ H]. congruence. }
  assert (Hrep : In id (deselectedReport this r select deselect) <-> reported).
  { unfold reported. rewrite In_deselectedReport, In_toDeselect.
    rewrite (prevResolves_unresolved (root this) r id Hr).
    pose proof (proj1 (In_applySelection this select deselect id) Hin) as Happ.
    tauto. }
  split; [assumption|]. split.
  - unfold res. rewrite updateSelection_defined. simpl. intros actions H.
    exists (deselectedReport this r select deselect). split; [|assumption].
    apply in_app_or in H. destruct H as [H | H].
    + destruct (selectionChanged _ _); [|contradiction].
      destruct H as [H | []]. congruence.
    + destruct (_ || _); [|contradiction].
      apply in_map_iff in H. destruct H as [l [H _]]. discriminate.
  - intros Hsel. exists (deselectedReport this r select deselect).
    split; [|assumption].
    pose proof (selectionChanged_missing _ _ id Hsel Hgone) as Hch.
    revert Hch. unfold res. rewrite updateSelection_defined. simpl.
    intros ->. rewrite orb_true_r. reflexivity.
Qed.

Lemma pruned_and_reported_witness :
  exists deselected,
    trace (updateSelection (final scenario2) (Some rootB) [] []) =
      RegisterFeedback
        [mkSelectFeedback
           (selectedElementIDs
              (final (updateSelection (final scenario2) (Some rootB) [] [])))
           deselected]
      :: map (fun l => SelectionChanged
                         l (Some rootB)
                         (selectedElementIDs
                            (final (updateSelection (final scenario2)
                                                    (Some rootB) [] []))))
             (selectionListeners (final scenario2))
    /\ (In "n1" deselected
        <-> exists p, root (final scenario2) = Some p
                      /\ ref p <> ref rootB /\ resolves p "n1" = true).
Proof.
  apply (proj2 (proj2 (pruned_and_reported (final scenario2) rootB [] [] "n1"
                                           (or_introl eq_refl) eq_refl))).
  simpl. auto.
Defined.

(** C6: [updateSelection(undefined, [], [])] returns at once: the service is
    left as it was (root, selection and listeners), nothing is dispatched and
    no listener is called. *)
Theorem updateSelection_noop (this : SelectionService) :
  updateSelection this None [] [] =
    {| final := this; trace := []; completion := Normal |}.
Proof. reflexivity. Qed.

(** C7: [modelRootChanged(root)] is [updateSelection(root, [], [])]: the same
    final state, the same calls on the dispatcher and the listeners in the
    same order, the same completion, for every state and every root, the
    undefined one included. *)
Theorem modelRootChanged_is_update (this : SelectionService)
        (r : option SModelRoot) :
  modelRootChanged this r = updateSelection this r [] [].
Proof. reflexivity. Qed.

(** C4: the fresh service satisfies the invariant (every selected id resolves
    in the index of the stored root), and every call that returns
    ([register], [deregister], [modelRootChanged], [updateSelection] and the
    queries) on a service that satisfies it leaves a service that satisfies
    it. *)
Theorem invariant_preserved :
  (forall listeners, Invariant (initial listeners))
  /\ (forall (c : Call) (this : SelectionService),
        Invariant this ->
        completion (run c this) = Normal ->
        Invariant (final (run c this))).
Proof.
  split.
  - intros ls id [].
  - assert (Hupd : forall this r select deselect,
               Invariant this ->
               completion (updateSelection this r select deselect) = Normal ->
               Invariant (final (updateSelection this r select deselect))).
    { intros this r select deselect Hinv. destruct r as [r|].
      - rewrite updateSelection_defined. simpl. intros _ id Hid. simpl in *.
        exists r. apply filter_In in Hid. tauto.
      - rewrite updateSelection_undefined.
        destruct (_ && _); [intros _; assumption|].
        destruct (applySelection this select deselect); simpl;
          [intros _ id [] | discriminate]. }
    intros c this Hinv. destruct c; simpl; try (intros _; assumption).
    + apply Hupd. assumption.
    + apply Hupd. assumption.
    + destruct (getSelectedElements this); intros _; assumption.
Qed.

Lemma invariant_preserved_witness :
  Invariant (final (run (CallModelRootChanged (Some rootB)) (final scenario1))).
Proof.
  apply (proj2 invariant_preserved
               (CallModelRootChanged (Some rootB)) (final scenario1)).
  - intros id Hid. exists rootA. split; [reflexivity|].
    simpl in Hid. destruct Hid as [<- | [<- | []]]; reflexivity.
  - reflexivity.
Defined.

(** C5: a call of [updateSelection] whose root is the previous root (the same
    reference) and that leaves the selection with the contents it had
    dispatches no feedback and calls no listener. *)
Theorem unchanged_is_silent (this : SelectionService) (r : option SModelRoot)
        (select deselect : list string) :
  reachable this ->
  sameRoot (root this) r = true ->
  sameSelection (selectedElementIDs this)
                (selectedElementIDs (final (updateSelection this r select deselect))) ->
  trace (updateSelection this r select deselect) = [].
Proof.
  intros Hreach Hroot Hsel. apply reachable_wf in Hreach.
  pose proof (updateSelection_wf this r select deselect Hreach) as Hwf'.
  apply (selectionChanged_false _ _ Hreach Hwf') in Hsel.
  destruct (completion (updateSelection this r select deselect)) eqn:Hc.
  - destruct (updateSelection_trace this r select deselect Hc) as [d E].
    rewrite E, Hsel.
    destruct (updateSelection_root this r select deselect) as [-> | ->];
      [rewrite Hroot | rewrite sameRoot_refl]; reflexivity.
  - apply updateSelection_thrown_trace. congruence.
Qed.

Lemma unchanged_is_silent_witness :
  trace (updateSelection (final scenario1) (Some rootA) ["n2"] ["n2"]) = [].
Proof.
  apply (unchanged_is_silent (final scenario1) (Some rootA) ["n2"] ["n2"]).
  - exact (reachable_call (CallUpdateSelection (Some rootA) ["n1"; "n2"] [])
                          (initial [7]) (reachable_initial [7])).
  - reflexivity.
  - intros id. split; intros H; exact H.
Defined.

(** C8 fails on the code: on the service scenario 1 leaves (root [rootA],
    "n1" and "n2" selected, one listener), [updateSelection(undefined, [],
    ["zz"])] passes the guard of line 52, stores the undefined root at line
    59, so the root reference has changed, and throws at line 76 before it
    reaches lines 93 to 96: no listener is called. *)
Theorem root_erased_without_notification :
  selectionListeners (final scenario1) = [7]
  /\ sameRoot (root (final scenario1))
              (root (final (updateSelection (final scenario1) None [] ["zz"])))
     = false
  /\ completion (updateSelection (final scenario1) None [] ["zz"]) = Throw TypeError
  /\ trace (updateSelection (final scenario1) None [] ["zz"]) = [].
Proof. repeat split. Qed.

(** X20: in every call of [updateSelection] that returns, the trace is the
    feedback part followed by the listener part.  The feedback part holds
    only the dispatch (one, when the selection changed; none otherwise), the
    listener part only listener calls; so a feedback comes before every
    listener call.  When the stored root changed (by reference) or the
    contents of the selection changed, the listener part is one call per
    registered listener, in the order of the listener array, with the new
    root and the new selection; otherwise it is empty. *)
Theorem feedback_then_listeners (this : SelectionService) (r : option SModelRoot)
        (select deselect : list string) :
  reachable this ->
  completion (updateSelection this r select deselect) = Normal ->
  let res := updateSelection this r select deselect in
  let this' := final res in
  let changed :=
    sameRoot (root this) (root this') = false
    \/ ~ sameSelection (selectedElementIDs this) (selectedElementIDs this') in
  exists feedback notified,
    trace res = feedback ++ notified
    /\ (forall e, In e feedback -> isFeedback e = true)
    /\ (forall e, In e notified -> isNotification e = true)
    /\ (~ sameSelection (selectedElementIDs this) (selectedElementIDs this') ->
        exists deselected,
          feedback = [RegisterFeedback
                        [mkSelectFeedback (JSSet.values (selectedElementIDs this'))
                                          deselected]])
    /\ (sameSelection (selectedElementIDs this) (selectedElementIDs this') ->
        feedback = [])
    /\ (changed ->
        notified = map (fun l => SelectionChanged l (root this')
                                    (JSSet.values (selectedElementIDs this')))
                       (selectionListeners this))
    /\ (~ changed -> notified = []).
Proof.
  intros Hreach Hc res this' changed. apply reachable_wf in Hreach.
  pose proof (updateSelection_wf this r select deselect Hreach) as Hwf'.
  pose proof (selectionChanged_false _ _ Hreach Hwf') as Hsel.
  destruct (updateSelection_trace this r select deselect Hc) as [d E].
  fold res in E, Hsel. fold this' in E, Hsel.
  unfold changed. clear changed.
  destruct (selectionChanged (selectedElementIDs this) (selectedElementIDs this'))
           eqn:Hch.
  - assert (Hne : ~ sameSelection (selectedElementIDs this) (selectedElementIDs this')).
    { intros H. apply (proj2 Hsel) in H. discriminate. }
    rewrite orb_true_r in E.
    eexists. eexists. split; [exact E|].
    split; [intros e [<- | []]; reflexivity|].
    split; [intros e He; apply in_map_iff in He; destruct He as [l [<- _]]; reflexivity|].
    split; [intros _; exists d; reflexivity|].
    split; [intros H; contradiction|].
    split; [intros _; reflexivity | intros H; exfalso; apply H; right; exact Hne].
  - assert (Hsame : sameSelection (selectedElementIDs this) (selectedElementIDs this')).
    { exact (proj1 Hsel eq_refl). }
    rewrite orb_false_r in E.
    eexists. eexists. split; [exact E|].
    split; [intros e []|].
    destruct (sameRoot (root this) (root this')) eqn:Hroot; simpl.
    + split; [intros e []|].
      split; [intros H; contradiction|].
      split; [reflexivity|].
      split; [intros [H | H]; [discriminate | contradiction] | reflexivity].
    + split; [intros e He; apply in_map_iff in He; destruct He as [l [<- _]]; reflexivity|].
      split; [intros H; contradiction|].
      split; [reflexivity|].
      split; [reflexivity | intros H; exfalso; apply H; left; reflexivity].
Qed.

Lemma feedback_then_listeners_witness :
  exists feedback notified,
    trace scenario3 = feedback ++ notified
    /\ (forall e, In e feedback -> isFeedback e = true)
    /\ (forall e, In e notified -> isNotification e = true)
    /\ (~ sameSelection (selectedElementIDs (final scenario2))
                        (selectedElementIDs (final scenario3)) ->
        exists deselected,
          feedback = [RegisterFeedback
                        [mkSelectFeedback
                           (JSSet.values (selectedElementIDs (final scenario3)))
                           deselected]])
    /\ (sameSelection (selectedElementIDs (final scenario2))
                      (selectedElementIDs (final scenario3)) ->
        feedback = [])
    /\ (sameRoot (root (final scenario2)) (root (final scenario3)) = false
        \/ ~ sameSelection (selectedElementIDs (final scenario2))
                           (selectedElementIDs (final scenario3)) ->
        notified = map (fun l => SelectionChanged
                                   l (root (final scenario3))
                                   (JSSet.values (selectedElementIDs (final scenario3))))
                       (selectionListeners (final scenario2)))
    /\ (~ (sameRoot (root (final scenario2)) (root (final scenario3)) = false
           \/ ~ sameSelection (selectedElementIDs (final scenario2))
                              (selectedElementIDs (final scenario3))) ->
        notified = []).
Proof.
  apply (feedback_then_listeners (final scenario2) (Some rootB) [] []).
  - exact (reachable_call
             (CallUpdateSelection (Some rootA) ["n2"] ["n2"]) _
             (reachable_call (CallUpdateSelection (Some rootA) ["n1"; "n2"] [])
                             (initial [7]) (reachable_initial [7]))).
  - reflexivity.
Defined.

(** *** Registration *)

Lemma distinctAdd_present (ls : list SelectionListener) (l : SelectionListener) :
  In l ls -> distinctAdd ls l = ls.
Proof.
  intros H. unfold distinctAdd.
  replace (existsb (Nat.eqb l) ls) with true; [reflexivity|].
  symmetry. apply existsb_exists. exists l. split; [assumption | apply Nat.eqb_refl].
Qed.

Lemma distinctAdd_In (ls : list SelectionListener) (l : SelectionListener) :
  In l (distinctAdd ls l).
Proof.
  unfold distinctAdd. destruct (existsb (Nat.eqb l) ls) eqn:E.
  - apply existsb_exists in E. destruct E as [x [Hx E]].
    apply Nat.eqb_eq in E. now subst.
  - apply in_or_app. right. left. reflexivity.
Qed.

Lemma distinctAdd_count (ls : list SelectionListener) (l : SelectionListener) :
  count_occ Nat.eq_dec ls l <= 1 ->
  count_occ Nat.eq_dec (distinctAdd ls l) l = 1.
Proof.
  intros H. unfold distinctAdd. destruct (existsb (Nat.eqb l) ls) eqn:E.
  - apply existsb_exists in E. destruct E as [x [Hx E]].
    apply Nat.eqb_eq in E. subst x.
    apply (count_occ_In Nat.eq_dec) in Hx. lia.
  - rewrite count_occ_app. simpl. destruct (Nat.eq_dec l l); [|congruence].
    assert (Hn : ~ In l ls).
    { intros Hin. apply not_true_iff_false in E. apply E.
      apply existsb_exists. exists l. split; [assumption | apply Nat.eqb_refl]. }
    apply (count_occ_not_In Nat.eq_dec) in Hn. lia.
Qed.

Lemma notificationsTo_listeners (l : SelectionListener) (r : option SModelRoot)
      (ids : list string) (ls : list SelectionListener) :
  notificationsTo l (map (fun l' => SelectionChanged l' r ids) ls)
  = count_occ Nat.eq_dec ls l.
Proof.
  unfold notificationsTo. induction ls as [|x ls IH]; simpl; [reflexivity|].
  destruct (Nat.eq_dec x l) as [-> | Hne].
  - rewrite Nat.eqb_refl. simpl. rewrite IH. reflexivity.
  - apply Nat.eqb_neq in Hne. rewrite Hne. assumption.
Qed.

(** C9: with [distinctAdd] as the specification describes it, registering a
    listener that is in the listener array leaves the service as it was;
    registering twice is registering once; and, when the array held the
    listener at most once to begin with, an update that calls listeners after
    the listener was registered twice calls that listener exactly once. *)
Theorem register_idempotent (this : SelectionService) (l : SelectionListener) :
  (In l (selectionListeners this) -> register this l = this)
  /\ register (register this l) l = register this l
  /\ (count_occ Nat.eq_dec (selectionListeners this) l <= 1 ->
      forall (r : option SModelRoot) (select deselect : list string),
        let res := updateSelection (register (register this l) l) r select deselect in
        (exists e, In e (trace res) /\ isNotification e = true) ->
        notificationsTo l (trace res) = 1).
Proof.
  split; [|split].
  - intros H. unfold register. rewrite distinctAdd_present by assumption.
    destruct this; reflexivity.
  - unfold register. simpl. rewrite (distinctAdd_present (distinctAdd _ l) l).
    + reflexivity.
    + apply distinctAdd_In.
  - intros Hcount r select deselect res [e [He Hn]].
    destruct (completion res) eqn:Hc.
    + destruct (updateSelection_trace _ r select deselect Hc) as [d E].
      fold res in E. rewrite E in He |- *.
      set (cond := negb _ || _) in *. unfold notificationsTo.
      rewrite filter_app, length_app.
      assert (Hfb : forall b a,
                 filter (isNotificationTo l)
                        (if b : bool then [RegisterFeedback a] else []) = []).
      { intros [] a; reflexivity. }
      rewrite Hfb. simpl List.length at 1.
      destruct cond.
      * fold (notificationsTo l
                (map (fun l0 => SelectionChanged l0 (root (final res))
                                  (JSSet.values (selectedElementIDs (final res))))
                     (selectionListeners (register (register this l) l)))).
        rewrite notificationsTo_listeners. simpl.
        rewrite (distinctAdd_present (distinctAdd _ l) l) by apply distinctAdd_In.
        apply distinctAdd_count. assumption.
      * exfalso. rewrite app_nil_r in He.
        destruct (selectionChanged _ _); [|contradiction].
        destruct He as [<- | []]. discriminate.
    + exfalso. unfold res in He.
      rewrite updateSelection_thrown_trace in He; [contradiction|].
      fold res. congruence.
Qed.

Lemma register_idempotent_witness :
  register (initial [7]) 7 = initial [7]
  /\ notificationsTo 7 (trace (updateSelection (register (register (initial []) 7) 7)
                                               (Some rootA) ["n1"] [])) = 1.
Proof.
  split.
  - apply (proj1 (register_idempotent (initial [7]) 7)). simpl. auto.
  - apply (proj2 (proj2 (register_idempotent (initial []) 7))).
    + simpl. lia.
    + exists (SelectionChanged 7 (Some rootA) ["n1"]). split; [|reflexivity].
      simpl. right. left. reflexivity.
Defined.

(** *** Phantom selections *)

Lemma filter_none {A} (f : A -> bool) (l : list A) :
  (forall x, In x l -> f x = false) -> filter f l = [].
Proof.
  induction l as [|a l IH]; intros H; simpl; [reflexivity|].
  rewrite (H a) by (left; reflexivity). apply IH. intros x Hx. apply H. now right.
Qed.

(** C10: on a service that holds the root [r], [updateSelection(r, select,
    [])] with no id of [select] resolvable in [r] returns and leaves the
    service as it was, dispatches no feedback, calls no listener, and none
    of the ids of [select] is among the deselected ids it collects. *)
Theorem phantom_selection_absorbed (this : SelectionService) (r : SModelRoot)
        (select : list string) :
  reachable this ->
  root this = Some r ->
  (forall id, In id select -> resolves r id = false) ->
  let res := updateSelection this (Some r) select [] in
  final res = this
  /\ trace res = []
  /\ completion res = Normal
  /\ (forall id, In id select -> ~ In id (deselectedReport this r select [])).
Proof.
  intros Hreach Hroot Hsel res.
  pose proof (reachable_resolvedIn this Hreach r Hroot) as Hres.
  assert (Hids : filter (resolves r) (applySelection this select [])
                 = selectedElementIDs this).
  { unfold applySelection. simpl fold_left at 2.
    destruct (fold_add_extends (toSelect select []) (selectedElementIDs this))
      as [suffix [-> Hsuf]].
    rewrite filter_app, (filter_none _ suffix), app_nil_r.
    - apply forallb_filter_id. apply forallb_forall. assumption.
    - intros x Hx. apply Hsel. apply Hsuf in Hx. destruct Hx as [Hx _].
      apply In_toSelect in Hx. tauto. }
  unfold res. rewrite updateSelection_defined. cbv zeta. rewrite Hids.
  rewrite selectionChanged_same, Hroot, sameRoot_refl. simpl.
  split; [destruct this; simpl in *; congruence|].
  split; [reflexivity|]. split; [reflexivity|].
  intros id Hid Hrep. apply In_deselectedReport in Hrep.
  destruct Hrep as [H | [_ [H1 H2]]].
  - apply In_toDeselect in H. destruct H as [[] _].
  - apply (prevResolves_unresolved _ r id H1) in H2.
    destruct H2 as [q [Hq [Hne _]]]. rewrite Hroot in Hq.
    injection Hq as <-. contradiction.
Qed.

Lemma phantom_selection_absorbed_witness :
  let res := updateSelection (final scenario1) (Some rootA) ["ghost"] [] in
  final res = final scenario1
  /\ trace res = []
  /\ completion res = Normal
  /\ (forall id, In id ["ghost"] ->
                 ~ In id (deselectedReport (final scenario1) rootA ["ghost"] [])).
Proof.
  apply (phantom_selection_absorbed (final scenario1) rootA ["ghost"]).
  - exact (reachable_call (CallUpdateSelection (Some rootA) ["n1"; "n2"] [])
                          (initial [7]) (reachable_initial [7])).
  - reflexivity.
  - intros id [<- | []]. reflexivity.
Defined.

(** ** Further properties of the update *)

(** Whatever way the call ends, the selection it leaves is part of the
    selection after the deletions and additions of lines 66 to 71 (for the
    return of line 53 both lists are empty and nothing was deleted or
    added). *)
Lemma final_selection_applied (this : SelectionService) (r : option SModelRoot)
      (select deselect : list string) (id : string) :
  In id (selectedElementIDs (final (updateSelection this r select deselect))) ->
  In id (applySelection this select deselect).
Proof.
  destruct r as [r|].
  - rewrite updateSelection_selection. tauto.
  - rewrite updateSelection_undefined.
    destruct (Nat.eqb (List.length select) 0 && Nat.eqb (List.length deselect) 0)
             eqn:Hempty.
    + apply andb_true_iff in Hempty. destruct Hempty as [Hs Hd].
      apply Nat.eqb_eq, length_zero_iff_nil in Hs.
      apply Nat.eqb_eq, length_zero_iff_nil in Hd.
      subst. simpl. tauto.
    + destruct (applySelection this select deselect); simpl; tauto.
Qed.

(** X1: The call throws exactly when it has no root, at least one of the lists is
    not empty and the selection is not empty after the deletions and
    additions; it then leaves the service without a root, with that
    selection unpruned, and has emitted nothing. *)
Theorem throws_exactly (this : SelectionService) (r : option SModelRoot)
        (select deselect : list string) :
  let res := updateSelection this r select deselect in
  (completion res = Throw TypeError
   <-> r = None
       /\ (select <> [] \/ deselect <> [])
       /\ applySelection this select deselect <> [])
  /\ (completion res = Throw TypeError ->
      final res = {| root := None;
                     selectedElementIDs := applySelection this select deselect;
                     selectionListeners := selectionListeners this |}
      /\ trace res = []).
Proof.
  cbv zeta. split.
  - rewrite updateSelection_throws. tauto.
  - destruct r as [r|].
    + rewrite updateSelection_defined. simpl. discriminate.
    + rewrite updateSelection_undefined. destruct (_ && _); [discriminate|].
      destruct (applySelection this select deselect); simpl;
        [discriminate | intros _; split; reflexivity].
Qed.

Lemma throws_exactly_witness :
  final (updateSelection (final scenario1) None [] ["zz"])
  = {| root := None; selectedElementIDs := ["n1"; "n2"]; selectionListeners := [7] |}
  /\ trace (updateSelection (final scenario1) None [] ["zz"]) = [].
Proof.
  apply (proj2 (throws_exactly (final scenario1) None [] ["zz"])). reflexivity.
Defined.

(** X2: With a root the call always returns; it stores the root, leaves the
    listener array alone, and the ids selected afterwards are exactly those
    the root resolves among: the ids selected before and not deselected by
    this call, and the ids this call selects. *)
Theorem update_with_root (this : SelectionService) (r : SModelRoot)
        (select deselect : list string) :
  let res := updateSelection this (Some r) select deselect in
  completion res = Normal
  /\ root (final res) = Some r
  /\ selectionListeners (final res) = selectionListeners this
  /\ forall id,
       In id (selectedElementIDs (final res))
       <-> resolves r id = true
           /\ ((In id (selectedElementIDs this)
                /\ ~ (In id deselect /\ ~ In id select))
               \/ (In id select /\ ~ In id deselect)).
Proof.
  cbv zeta.
  split; [rewrite updateSelection_defined; reflexivity|].
  split; [rewrite updateSelection_defined; reflexivity|].
  split; [rewrite updateSelection_defined; reflexivity|].
  intros id. rewrite updateSelection_selection, In_applySelection. tauto.
Qed.

(** X3: An id in the select list and not in the deselect list, resolvable in the
    root of the call, is selected after the call. *)
Theorem select_selects (this : SelectionService) (r : SModelRoot)
        (select deselect : list string) (id : string) :
  In id select -> ~ In id deselect -> resolves r id = true ->
  In id (selectedElementIDs (final (updateSelection this (Some r) select deselect))).
Proof.
  intros Hs Hd Hr. rewrite updateSelection_selection, In_applySelection. tauto.
Qed.

Lemma select_selects_witness :
  In "n2" (selectedElementIDs
             (final (updateSelection (initial []) (Some rootA) ["n2"] ["n1"]))).
Proof.
  apply (select_selects (initial []) rootA ["n2"] ["n1"] "n2").
  - simpl. auto.
  - simpl. intros [H | []]. discriminate.
  - reflexivity.
Defined.

(** X4: An id in the deselect list and not in the select list is not selected
    after the call, with or without a root and also when the call throws. *)
Theorem deselect_deselects (this : SelectionService) (r : option SModelRoot)
        (select deselect : list string) (id : string) :
  In id deselect -> ~ In id select ->
  ~ In id (selectedElementIDs (final (updateSelection this r select deselect))).
Proof.
  intros Hd Hs Hin. apply final_selection_applied, In_applySelection in Hin. tauto.
Qed.

Lemma deselect_deselects_witness :
  ~ In "n1" (selectedElementIDs
               (final (updateSelection (final scenario1) None ["n2"] ["n1"]))).
Proof.
  apply (deselect_deselects (final scenario1) None ["n2"] ["n1"] "n1").
  - simpl. auto.
  - simpl. intros [H | []]. discriminate.
Defined.

(** X5: The call never selects an id that was neither selected before nor in the
    select list, however it ends. *)
Theorem selects_only_requested (this : SelectionService) (r : option SModelRoot)
        (select deselect : list string) (id : string) :
  In id (selectedElementIDs (final (updateSelection this r select deselect))) ->
  In id (selectedElementIDs this) \/ In id select.
Proof.
  intros Hin. apply final_selection_applied, In_applySelection in Hin. tauto.
Qed.

Lemma selects_only_requested_witness :
  In "n1" (selectedElementIDs (initial [])) \/ In "n1" ["n1"; "ghost"].
Proof.
  apply (selects_only_requested (initial []) (Some rootA) ["n1"; "ghost"] [] "n1").
  simpl. auto.
Defined.

(** *** Redundant requests *)

Lemma fold_add_present (l : list string) (s : JSSet.t) :
  (forall x, In x l -> In x s) -> fold_left JSSet.add l s = s.
Proof.
  induction l as [|a l IH]; intros H; simpl; [reflexivity|].
  unfold JSSet.add at 2.
  replace (JSSet.has s a) with true
    by (symmetry; apply has_In, H; left; reflexivity).
  apply IH. intros x Hx. apply H. now right.
Qed.

Lemma fold_delete_filter (l : list string) (s : JSSet.t) :
  fold_left JSSet.delete l s = filter (fun id => negb (JSSet.has l id)) s.
Proof.
  revert s; induction l as [|a l IH]; intros s; simpl.
  - symmetry. apply forallb_filter_id, forallb_forall. reflexivity.
  - rewrite IH. unfold JSSet.delete. rewrite filter_filter.
    apply filter_ext. intros x. rewrite (String.eqb_sym x a), negb_orb.
    reflexivity.
Qed.

(** X6: On a service that holds the root [r], a call with the same root that
    only selects ids already selected (or also listed for deselection) and
    only deselects ids not selected (or also listed for selection) is a full
    no-op: the service is left as it was and nothing is emitted. *)
Theorem redundant_update_is_noop (this : SelectionService) (r : SModelRoot)
        (select deselect : list string) :
  reachable this ->
  root this = Some r ->
  (forall id, In id select -> In id deselect \/ In id (selectedElementIDs this)) ->
  (forall id, In id deselect -> In id select \/ ~ In id (selectedElementIDs this)) ->
  updateSelection this (Some r) select deselect =
    {| final := this; trace := []; completion := Normal |}.
Proof.
  intros Hreach Hroot Hs Hd.
  pose proof (reachable_resolvedIn this Hreach r Hroot) as Hres.
  assert (HtoD : toDeselect this select deselect = []).
  { apply filter_none. intros x Hx. apply not_true_iff_false. intros H.
    apply andb_true_iff in H. destruct H as [H1 H2].
    apply indexOf_absent in H1. apply has_In in H2.
    destruct (Hd x Hx); contradiction. }
  assert (Happ : applySelection this select deselect = selectedElementIDs this).
  { unfold applySelection. rewrite HtoD. simpl. apply fold_add_present.
    intros x Hx. apply In_toSelect in Hx. destruct Hx as [Hx Hnd].
    destruct (Hs x Hx); [contradiction | assumption]. }
  rewrite updateSelection_defined. cbv zeta. rewrite Happ.
  rewrite (forallb_filter_id (resolves r) (selectedElementIDs this))
    by (apply forallb_forall; assumption).
  rewrite selectionChanged_same, Hroot, sameRoot_refl. simpl.
  destruct this; simpl in *; congruence.
Qed.

Lemma redundant_update_is_noop_witness :
  updateSelection (final scenario1) (Some rootA) ["n1"; "n2"] ["n2"; "n3"] =
    {| final := final scenario1; trace := []; completion := Normal |}.
Proof.
  apply (redundant_update_is_noop (final scenario1) rootA ["n1"; "n2"] ["n2"; "n3"]).
  - exact (reachable_call (CallUpdateSelection (Some rootA) ["n1"; "n2"] [])
                          (initial [7]) (reachable_initial [7])).
  - reflexivity.
  - intros id H. right. exact H.
  - intros id [<- | [<- | []]].
    + left. simpl. auto.
    + right. simpl. intros [H | [H | []]]; discriminate.
Defined.

(** X7: The call does not reorder the selection: the ids that stay selected keep
    their order and the newly selected ids come after them; each of those is
    an id of the select list that was not selected before.  (The order is
    what the feedback and the listeners receive.) *)
Theorem selection_order_kept (this : SelectionService) (r : SModelRoot)
        (select deselect : list string) :
  exists added,
    selectedElementIDs (final (updateSelection this (Some r) select deselect))
    = filter (fun id =>
                resolves r id
                && negb (existsb (String.eqb id) deselect
                         && negb (existsb (String.eqb id) select)))
             (selectedElementIDs this)
      ++ added
    /\ forall id, In id added ->
                  In id select /\ ~ In id (selectedElementIDs this).
Proof.
  rewrite updateSelection_defined. cbv zeta. simpl. unfold applySelection.
  destruct (fold_add_extends
              (toSelect select deselect)
              (fold_left JSSet.delete (toDeselect this select deselect)
                         (selectedElementIDs this)))
    as [suffix [-> Hsuf]].
  exists (filter (resolves r) suffix). split.
  - rewrite filter_app. f_equal. rewrite fold_delete_filter, filter_filter.
    apply filter_ext_in. intros x Hx. rewrite andb_comm. f_equal. f_equal.
    apply eq_true_iff_eq.
    fold (JSSet.has deselect x). fold (JSSet.has select x).
    rewrite has_In, In_toDeselect, andb_true_iff, negb_true_iff.
    rewrite has_In, has_false. tauto.
  - intros id Hid. apply filter_In in Hid. destruct Hid as [Hid _].
    apply Hsuf in Hid. destruct Hid as [H1 H2].
    apply In_toSelect in H1. rewrite In_fold_delete, In_toDeselect in H2.
    tauto.
Qed.

(** *** What is emitted *)

(** X8: A feedback the call dispatches holds one action; its selected ids are the
    selection the call leaves, and none of its deselected ids is among them;
    each deselected id was selected before the call or is in the select
    list. *)
Theorem feedback_lists_disjoint (this : SelectionService) (r : option SModelRoot)
        (select deselect : list string) (actions : list SelectFeedbackAction) :
  let res := updateSelection this r select deselect in
  In (RegisterFeedback actions) (trace res) ->
  exists deselected,
    actions = [mkSelectFeedback (selectedElementIDs (final res)) deselected]
    /\ (forall id, In id deselected -> ~ In id (selectedElementIDs (final res)))
    /\ (forall id, In id deselected ->
                   In id (selectedElementIDs this) \/ In id select).
Proof.
  cbv zeta. destruct r as [r|].
  - intros Hin.
    assert (Hfb : actions =
                  [mkSelectFeedback
                     (selectedElementIDs
                        (final (updateSelection this (Some r) select deselect)))
                     (deselectedReport this r select deselect)]).
    { revert Hin. rewrite updateSelection_defined. simpl. intros Hin.
      apply in_app_or in Hin. destruct Hin as [H | H].
      - destruct (selectionChanged _ _); [|contradiction].
        destruct H as [H | []]. congruence.
      - destruct (_ || _); [|contradiction].
        apply in_map_iff in H. destruct H as [l [H _]]. discriminate. }
    exists (deselectedReport this r select deselect).
    split; [assumption|]. split.
    + intros id Hid Hsel. apply updateSelection_selection in Hsel.
      apply In_deselectedReport in Hid. rewrite In_toDeselect in Hid.
      rewrite In_applySelection in Hsel. destruct Hsel as [Hsel Hres].
      destruct Hid as [Hid | [_ [Hid _]]]; [tauto | congruence].
    + intros id Hid. apply In_deselectedReport in Hid.
      rewrite In_toDeselect, In_applySelection in Hid. tauto.
  - rewrite updateSelection_undefined. destruct (_ && _); [intros []|].
    destruct (applySelection this select deselect) eqn:Happ; simpl; [|intros []].
    intros Hin. apply in_app_or in Hin. destruct Hin as [H | H].
    + destruct (selectionChanged _ _); [|contradiction].
      destruct H as [H | []]. injection H as <-.
      exists (JSSet.of_array (toDeselect this select deselect)).
      split; [reflexivity|]. split; [intros id _ []|].
      intros id Hid. apply In_of_array, In_toDeselect in Hid. tauto.
    + destruct (_ || _); [|contradiction].
      apply in_map_iff in H. destruct H as [l [H _]]. discriminate.
Qed.

Lemma feedback_lists_disjoint_witness :
  exists deselected,
    [mkSelectFeedback ["n2"] ["n1"]]
    = [mkSelectFeedback (selectedElementIDs (final scenario3)) deselected]
    /\ (forall id, In id deselected -> ~ In id (selectedElementIDs (final scenario3)))
    /\ (forall id, In id deselected ->
                   In id (selectedElementIDs (final scenario2)) \/ In id []).
Proof.
  apply (feedback_lists_disjoint (final scenario2) (Some rootB) [] []
                                 [mkSelectFeedback ["n2"] ["n1"]]).
  simpl. left. reflexivity.
Defined.

(** X9: A call emits at most one feedback and one call per listener; and a
    feedback never goes out alone: it is followed, in the same call, by the
    notification of every listener of the array, in order, with the root and
    the selection the call leaves. *)
Theorem feedback_implies_notification (this : SelectionService)
        (r : option SModelRoot) (select deselect : list string) :
  let res := updateSelection this r select deselect in
  List.length (trace res) <= 1 + List.length (selectionListeners this)
  /\ forall actions,
       In (RegisterFeedback actions) (trace res) ->
       trace res =
         RegisterFeedback actions
         :: map (fun l => SelectionChanged l (root (final res))
                            (JSSet.values (selectedElementIDs (final res))))
                (selectionListeners this).
Proof.
  cbv zeta.
  destruct (completion (updateSelection this r select deselect)) eqn:Hc.
  - destruct (updateSelection_trace this r select deselect Hc) as [d E].
    rewrite E. clear E. split.
    + rewrite length_app.
      destruct (selectionChanged _ _); destruct (negb _); simpl;
        rewrite ?length_map; lia.
    + intros actions Hin. apply in_app_or in Hin.
      destruct (selectionChanged _ _).
      * rewrite orb_true_r in *. destruct Hin as [[H | []] | H].
        -- injection H as <-. reflexivity.
        -- apply in_map_iff in H. destruct H as [l [H _]]. discriminate.
      * rewrite orb_false_r in *. destruct Hin as [[] | H].
        destruct (negb _); [|contradiction].
        apply in_map_iff in H. destruct H as [l [H _]]. discriminate.
  - rewrite updateSelection_thrown_trace by congruence.
    split; [simpl; lia | intros actions []].
Qed.

Lemma feedback_implies_notification_witness :
  trace scenario1 =
    RegisterFeedback [mkSelectFeedback ["n1"; "n2"] []]
    :: map (fun l => SelectionChanged l (root (final scenario1))
                       (JSSet.values (selectedElementIDs (final scenario1))))
           (selectionListeners (initial [7])).
Proof.
  apply (proj2 (feedback_implies_notification (initial [7]) (Some rootA)
                                              ["n1"; "n2"] [])).
  simpl. left. reflexivity.
Defined.

(** X10: The test of line 86 (sizes differ, or some id of the old set is missing
    from the new one) answers true exactly when the two sets differ in
    contents; the order of the ids plays no part. *)
Theorem selectionChanged_exact (prev ids : JSSet.t) :
  JSSet.wf prev -> JSSet.wf ids ->
  (selectionChanged prev ids = true <-> ~ sameSelection prev ids).
Proof.
  intros Hp Hi. pose proof (selectionChanged_false prev ids Hp Hi) as H.
  unfold sameSelection. destruct (selectionChanged prev ids).
  - split; [intros _ Hs; apply H in Hs; discriminate | reflexivity].
  - split; [discriminate | intros Hn; exfalso; apply Hn, H; reflexivity].
Qed.

Lemma selectionChanged_exact_witness :
  selectionChanged ["n1"; "n2"] ["n2"; "n1"] = true
  <-> ~ sameSelection ["n1"; "n2"] ["n2"; "n1"].
Proof.
  apply (selectionChanged_exact ["n1"; "n2"] ["n2"; "n1"]).
  - repeat constructor; simpl; intuition discriminate.
  - repeat constructor; simpl; intuition discriminate.
Defined.

(** *** The stored root and the invariant *)

(** X11: A call with a root establishes the invariant whatever state it starts
    from, the state a throwing call left behind included. *)
Theorem root_restores_invariant (this : SelectionService) (r : SModelRoot)
        (select deselect : list string) :
  Invariant (final (updateSelection this (Some r) select deselect)).
Proof.
  intros id Hid. exists r. split.
  - rewrite updateSelection_defined. reflexivity.
  - apply updateSelection_selection in Hid. tauto.
Qed.

(** X12: Whatever calls were made before, and however they ended, a service that
    holds a root satisfies the invariant. *)
Theorem rooted_state_invariant (this : SelectionService) :
  reachable this -> getModelRoot this <> None -> Invariant this.
Proof.
  unfold getModelRoot. intros Hreach Hroot id Hid.
  destruct (root this) as [r|] eqn:E; [|contradiction].
  exists r. split; [reflexivity|].
  apply (reachable_resolvedIn this Hreach r E id Hid).
Qed.

Lemma rooted_state_invariant_witness : Invariant (final scenario1).
Proof.
  apply (rooted_state_invariant (final scenario1)).
  - exact (reachable_call (CallUpdateSelection (Some rootA) ["n1"; "n2"] [])
                          (initial [7]) (reachable_initial [7])).
  - discriminate.
Defined.

Lemma stored_root_after_aux (this : SelectionService) (r : option SModelRoot)
      (select deselect : list string) :
  r <> None \/ select <> [] \/ deselect <> [] ->
  root (final (updateSelection this r select deselect)) = r.
Proof.
  intros H. destruct r as [r|].
  - rewrite updateSelection_defined. reflexivity.
  - rewrite updateSelection_undefined.
    destruct select as [|a select]; destruct deselect as [|b deselect]; simpl.
    + exfalso. destruct H as [H | [H | H]]; congruence.
    + destruct (applySelection this [] (b :: deselect)); reflexivity.
    + destruct (applySelection this (a :: select) []); reflexivity.
    + destruct (applySelection this (a :: select) (b :: deselect)); reflexivity.
Qed.

(** X13: Unless the call is the no-op of line 52, [getModelRoot] afterwards
    answers the root the call received: an undefined root passed with a
    non-empty list erases the stored root, also when the call throws. *)
Theorem stored_root_after (this : SelectionService) (r : option SModelRoot)
        (select deselect : list string) :
  r <> None \/ select <> [] \/ deselect <> [] ->
  getModelRoot (final (updateSelection this r select deselect)) = r.
Proof.
  unfold getModelRoot. apply stored_root_after_aux.
Qed.

Lemma stored_root_after_witness :
  getModelRoot (final (updateSelection (final scenario1) None [] ["n1"; "n2"])) = None.
Proof.
  apply (stored_root_after (final scenario1) None [] ["n1"; "n2"]).
  right. right. discriminate.
Defined.

(** *** A new model root *)


Lemma modelRootChanged_resolved (this : SelectionService) (r : SModelRoot) :
  (forall id, In id (selectedElementIDs this) -> resolves r id = true) ->
  modelRootChanged this (Some r) =
    {| final := {| root := Some r;
                   selectedElementIDs := selectedElementIDs this;
                   selectionListeners := selectionListeners this |};
       trace := if sameRoot (root this) (Some r)
                then []
                else map (fun l => SelectionChanged l (Some r)
                                     (selectedElementIDs this))
                         (selectionListeners this);
       completion := Normal |}.
Proof.
  intros H. unfold modelRootChanged. rewrite updateSelection_defined. cbv zeta.
  change (applySelection this [] []) with (selectedElementIDs this).
  rewrite (forallb_filter_id (resolves r) (selectedElementIDs this))
    by (apply forallb_forall; assumption).
  rewrite selectionChanged_same, orb_false_r. simpl.
  destruct (sameRoot (root this) (Some r)); reflexivity.
Qed.

(** X14: [modelRootChanged] with a root that resolves every selected id keeps the
    selection as it is and dispatches no feedback; the listeners are called,
    each once and in order, exactly when the root is another object than the
    stored one. *)
Theorem root_change_keeps_selection (this : SelectionService) (r : SModelRoot) :
  (forall id, In id (selectedElementIDs this) -> resolves r id = true) ->
  modelRootChanged this (Some r) =
    {| final := {| root := Some r;
                   selectedElementIDs := selectedElementIDs this;
                   selectionListeners := selectionListeners this |};
       trace := if sameRoot (root this) (Some r)
                then []
                else map (fun l => SelectionChanged l (Some r)
                                     (selectedElementIDs this))
                         (selectionListeners this);
       completion := Normal |}.
Proof. apply modelRootChanged_resolved. Qed.

Lemma root_change_keeps_selection_witness :
  modelRootChanged (final scenario3) (Some rootA) =
    {| final := {| root := Some rootA;
                   selectedElementIDs := selectedElementIDs (final scenario3);
                   selectionListeners := selectionListeners (final scenario3) |};
       trace := if sameRoot (root (final scenario3)) (Some rootA)
                then []
                else map (fun l => SelectionChanged l (Some rootA)
                                     (selectedElementIDs (final scenario3)))
                         (selectionListeners (final scenario3));
       completion := Normal |}.
Proof.
  apply (root_change_keeps_selection (final scenario3) rootA).
  intros id [<- | []]. reflexivity.
Defined.



(** X16: Announcing again the root an update has just stored changes nothing and
    emits nothing. *)
Theorem root_change_idempotent (this : SelectionService) (r : SModelRoot)
        (select deselect : list string) :
  let this' := final (updateSelection this (Some r) select deselect) in
  modelRootChanged this' (Some r) =
    {| final := this'; trace := []; completion := Normal |}.
Proof.
  cbv zeta. rewrite modelRootChanged_resolved.
  - rewrite updateSelection_defined. simpl. rewrite Nat.eqb_refl. reflexivity.
  - intros id Hid. apply updateSelection_selection in Hid. tauto.
Qed.

(** *** Composition *)

(** X17: On one root, selecting in two calls leaves the same ids selected as
    selecting everything in one call, and so does deselecting. *)
Theorem update_in_steps (this : SelectionService) (r : SModelRoot)
        (l1 l2 : list string) :
  sameSelection
    (selectedElementIDs
       (final (updateSelection (final (updateSelection this (Some r) l1 []))
                               (Some r) l2 [])))
    (selectedElementIDs (final (updateSelection this (Some r) (l1 ++ l2) [])))
  /\ sameSelection
       (selectedElementIDs
          (final (updateSelection (final (updateSelection this (Some r) [] l1))
                                  (Some r) [] l2)))
       (selectedElementIDs (final (updateSelection this (Some r) [] (l1 ++ l2)))).
Proof.
  split; intros id;
    rewrite !updateSelection_selection, !In_applySelection,
            updateSelection_selection, In_applySelection, in_app_iff;
    simpl; tauto.
Qed.

(** *** The queries *)

(** X18: [getSelectedElements] after an update reads the flags of the elements of
    the stored root and nothing else: with a root, the answer is the flagged
    elements of that root whatever the call selected or deselected; after a
    call without a root (other than the no-op of line 52) it throws. *)
Theorem getSelectedElements_after_update (this : SelectionService)
        (r : option SModelRoot) (select deselect : list string) :
  r <> None \/ select <> [] \/ deselect <> [] ->
  getSelectedElements (final (updateSelection this r select deselect))
  = match r with
    | Some r' => Some (filter isSelected (all r'))
    | None => None
    end.
Proof.
  intros H. unfold getSelectedElements.
  pose proof (stored_root_after_aux this r select deselect H) as E.
  rewrite E. destruct r; reflexivity.
Qed.

Lemma getSelectedElements_after_update_witness :
  getSelectedElements (final scenario1) = Some (filter isSelected (all rootA)).
Proof.
  apply (getSelectedElements_after_update (initial [7]) (Some rootA) ["n1"; "n2"] []).
  left. discriminate.
Defined.

(** X19: The three size queries agree with one another and with the set:
    [hasSelectedElements] holds exactly when one of [isSingleSelection] and
    [isMultiSelection] does, these two never hold together, and
    [hasSelectedElements] fails exactly on the empty selection. *)
Theorem size_queries_agree (this : SelectionService) :
  hasSelectedElements this = isSingleSelection this || isMultiSelection this
  /\ isSingleSelection this && isMultiSelection this = false
  /\ (hasSelectedElements this = false <-> getSelectedElementIDs this = []).
Proof.
  unfold hasSelectedElements, isSingleSelection, isMultiSelection,
    getSelectedElementIDs, JSSet.size.
  destruct (selectedElementIDs this) as [|a [|b l]]; simpl;
    repeat split; try reflexivity; try discriminate.
Qed.
